(** * The biography generation workflow of [src/pages/Home.tsx]

    The [Home] component keeps six [useState] hooks and two asynchronous
    handlers, [generateBiography] and [copyToClipboard].  This file embeds
    them as functions on an explicit state and studies the workflow they
    implement: the input guard, the prompt, the handling of the provider's
    answer, and the timer behind the "Copied!" acknowledgment. *)

From Stdlib Require Import List Bool NArith Arith Lia String Ascii.
Import ListNotations.

Local Open Scope N_scope.
Local Open Scope list_scope.

(** ** JavaScript strings *)

(** A JavaScript string is a sequence of UTF-16 code units. *)
Definition jsstring : Type := list N.

(** The source's literals are plain ASCII; [lit] reads one. *)
Fixpoint lit (s : string) : jsstring :=
  match s with
  | EmptyString => []
  | String c s' => N_of_ascii c :: lit s'
  end.

(** [a === b] on strings. *)
Fixpoint str_eqb (a b : jsstring) : bool :=
  match a, b with
  | [], [] => true
  | x :: a', y :: b' => (x =? y) && str_eqb a' b'
  | _, _ => false
  end.

(** Truthiness of a string: only [''] is falsy. *)
Definition truthy (s : jsstring) : bool :=
  match s with
  | [] => false
  | _ :: _ => true
  end.

(** The code units [String.prototype.trim] strips: ECMAScript's WhiteSpace
    (TAB, VT, FF, SP, NBSP, ZWNBSP and the Unicode space separators) and
    LineTerminator (LF, CR, LS, PS).  All of them lie in the basic plane, so
    trimming by code unit and by code point agree. *)
Definition isWhiteSpace (c : N) : bool :=
  existsb (N.eqb c)
    [9; 10; 11; 12; 13; 32; 160; 5760; 8232; 8233; 8239; 8287; 12288; 65279]
  || ((8192 <=? c) && (c <=? 8202)).

Fixpoint trimStart (s : jsstring) : jsstring :=
  match s with
  | [] => []
  | c :: s' => if isWhiteSpace c then trimStart s' else s
  end.

Definition trimEnd (s : jsstring) : jsstring := rev (trimStart (rev s)).

Definition trim (s : jsstring) : jsstring := trimEnd (trimStart s).

(** [sub] occurs in [s] as a contiguous run of code units. *)
Definition occurs_in (sub s : jsstring) : Prop :=
  exists pre post, s = pre ++ sub ++ post.

(** A string made of strippable code units only (the empty one included). *)
Definition blank (s : jsstring) : Prop := Forall (fun c => isWhiteSpace c = true) s.

(** ** The prompt (Home.tsx, lines 57-63) *)

(** A line break inside a template literal is the code unit LF. *)
Definition LF : jsstring := [10].

Definition professional_head : jsstring :=
  lit "Create a professional biography based on the following information: ".

Definition professional_tail : jsstring :=
  lit ". " ++ LF ++
  lit "           The biography should be formal, highlight achievements, and be suitable for professional platforms like LinkedIn or company websites." ++ LF ++
  lit "           Include relevant accomplishments, experience, and expertise. Keep it between 150-300 words.".

Definition social_head : jsstring :=
  lit "Create an engaging social media bio based on the following information: ".

Definition social_tail : jsstring :=
  lit "." ++ LF ++
  lit "           The bio should be concise, engaging, and perfect for platforms like Twitter, Instagram, or TikTok." ++ LF ++
  lit "           Make it catchy and memorable while highlighting key aspects. Keep it under 160 characters.".

(** The conditional expression bound to [prompt]: the two template literals
    with [${bioInfo}] spliced in. *)
Definition prompt (bioType bioInfo : jsstring) : jsstring :=
  if str_eqb bioType (lit "professional")
  then professional_head ++ bioInfo ++ professional_tail
  else social_head ++ bioInfo ++ social_tail.

(** ** Component state *)

(** The six [useState] hooks of [Home] (lines 39-44). *)
Record hooks : Type := Hooks {
  bioInfo : jsstring;
  bioType : jsstring;
  biography : jsstring;
  loading : bool;
  copied : bool;
  error : option jsstring          (* [string | null] *)
}.

Definition setBioInfo (v : jsstring) (h : hooks) : hooks :=
  Hooks v (bioType h) (biography h) (loading h) (copied h) (error h).
Definition setBioType (v : jsstring) (h : hooks) : hooks :=
  Hooks (bioInfo h) v (biography h) (loading h) (copied h) (error h).
Definition setBiography (v : jsstring) (h : hooks) : hooks :=
  Hooks (bioInfo h) (bioType h) v (loading h) (copied h) (error h).
Definition setLoading (v : bool) (h : hooks) : hooks :=
  Hooks (bioInfo h) (bioType h) (biography h) v (copied h) (error h).
Definition setCopied (v : bool) (h : hooks) : hooks :=
  Hooks (bioInfo h) (bioType h) (biography h) (loading h) v (error h).
Definition setError (v : option jsstring) (h : hooks) : hooks :=
  Hooks (bioInfo h) (bioType h) (biography h) (loading h) (copied h) v.

(** What surrounds the component: the provider, the clipboard and the
    timer queue.  [calls] logs the prompts handed to
    [model.generateContent], oldest first; a call is named by its position
    in that log, and [pending] lists the calls whose promise has not
    settled yet.  [timers] holds the due time of every [setTimeout] callback
    that has not run yet, [now] the clock in milliseconds. *)
Record world : Type := World {
  ui : hooks;
  calls : list jsstring;
  pending : list nat;
  clipboard : jsstring;
  now : N;
  timers : list N
}.

Definition with_ui (h : hooks) (w : world) : world :=
  World h (calls w) (pending w) (clipboard w) (now w) (timers w).

(** The first render: [useState('')], [useState('professional')],
    [useState('')], [useState(false)], [useState(false)], [useState(null)]. *)
Definition mount : world :=
  World (Hooks [] (lit "professional") [] false false None) [] [] [] 0 [].

(** ** generateBiography (lines 46-73) *)

(** A value reaching the [catch] clause: an [Error] instance carrying its
    [message], or any other thrown value. *)
Inductive thrown : Type :=
| ErrorInstance (message : jsstring)
| OtherValue.

(** How the awaited part of the [try] block ends:
    [generateContent] resolves and [result.response.text()] returns [text],
    or one of the two throws. *)
Inductive outcome : Type :=
| Fulfilled (text : jsstring)
| Rejected (err : thrown).

Definition not_configured : jsstring :=
  lit "API key not configured. Please add your Gemini API key to continue.".

Definition generic_failure : jsstring :=
  lit "An error occurred while generating the biography".

(** [catch (err) { setError(err instanceof Error ? err.message : '...');
    setBiography(''); }] *)
Definition catch_clause (err : thrown) (h : hooks) : hooks :=
  setBiography []
    (setError (Some match err with
                    | ErrorInstance message => message
                    | OtherValue => generic_failure
                    end) h).

(** [finally { setLoading(false); }] *)
Definition finally_clause (h : hooks) : hooks := setLoading false h.

(** The part of the handler that runs once the awaited call has settled:
    line 66 or the [catch] clause, then [finally]. *)
Definition resume (o : outcome) (h : hooks) : hooks :=
  finally_clause
    match o with
    | Fulfilled text => setBiography (trim text) h
    | Rejected err => catch_clause err h
    end.

Section Handlers.

(** Truthiness of the [genAI] client imported from [@/lib/gemini]: whether
    a provider credential is configured. *)
Variable genAI : bool.

(** The handler up to its [await].  With no client the [throw] of line 53
    is caught at once, so the whole handler runs in one go and no call is
    issued; otherwise the prompt is handed to the provider and the rest of
    the handler waits in [pending]. *)
Definition generateBiography (w : world) : world :=
  let h := ui w in
  if negb (truthy (trim (bioInfo h))) then w
  else
    let h1 := setError None (setLoading true h) in
    if negb genAI
    then with_ui (finally_clause (catch_clause (ErrorInstance not_configured) h1)) w
    else
      World h1
            (calls w ++ [prompt (bioType h) (bioInfo h)])
            (pending w ++ [List.length (calls w)])
            (clipboard w) (now w) (timers w).

(** The promise of call [id] settles with [o]; a call that is not
    outstanding cannot settle. *)
Definition settle (id : nat) (o : outcome) (w : world) : world :=
  if existsb (Nat.eqb id) (pending w)
  then World (resume o (ui w)) (calls w)
             (filter (fun j => negb (Nat.eqb id j)) (pending w))
             (clipboard w) (now w) (timers w)
  else w.

(** ** copyToClipboard (lines 75-79) *)

(** [written] tells whether [navigator.clipboard.writeText] resolved; when
    it rejects the handler stops at the [await].  The write is taken to
    complete at the instant of the click. *)
Definition copyToClipboard (written : bool) (w : world) : world :=
  if written
  then World (setCopied true (ui w)) (calls w) (pending w)
             (biography (ui w)) (now w) (timers w ++ [now w + 2000])
  else w.

(** [dt] milliseconds pass with no other event: every callback that has
    come due runs [setCopied(false)] and leaves the queue. *)
Definition elapse (dt : N) (w : world) : world :=
  let t := now w + dt in
  let due := filter (fun d => d <=? t) (timers w) in
  World (match due with [] => ui w | _ :: _ => setCopied false (ui w) end)
        (calls w) (pending w) (clipboard w) t
        (filter (fun d => negb (d <=? t)) (timers w)).

(** ** Events *)

(** The "Generate" button carries [disabled={loading || !bioInfo.trim()}]
    (line 123). *)
Definition generate_disabled (h : hooks) : bool :=
  loading h || negb (truthy (trim (bioInfo h))).

Inductive event : Type :=
| Edit (v : jsstring)                 (* textarea [onChange] *)
| Select (v : jsstring)               (* [onValueChange] of the selector *)
| ClickGenerate                       (* [onClick] of the "Generate" button *)
| Invoke                              (* [generateBiography()] called directly *)
| Settle (id : nat) (o : outcome)     (* the provider answers call [id] *)
| ClickCopy (written : bool)          (* [onClick] of the "Copy" button *)
| Elapse (dt : N).                    (* time passes *)

(** A disabled button fires no [onClick]; the "Copy" button only exists
    inside [{biography && ...}] (line 148). *)
Definition step (w : world) (e : event) : world :=
  match e with
  | Edit v => with_ui (setBioInfo v (ui w)) w
  | Select v => with_ui (setBioType v (ui w)) w
  | ClickGenerate => if generate_disabled (ui w) then w else generateBiography w
  | Invoke => generateBiography w
  | Settle id o => settle id o w
  | ClickCopy written => if truthy (biography (ui w)) then copyToClipboard written w else w
  | Elapse dt => elapse dt w
  end.

Definition run (evs : list event) (w : world) : world := fold_left step evs w.

(** Events a user of the page can cause: everything but a direct call of
    the handler. *)
Definition from_page (e : event) : bool :=
  match e with
  | Invoke => false
  | _ => true
  end.

End Handlers.

(** ** The workflow phase *)

Inductive phase : Type := Idle | Loading | Success | Error.

(** The phase the page shows: the spinner while [loading], else the error
    box when an error is stored, else the result card when there is a
    biography. *)
Definition phase_of (h : hooks) : phase :=
  if loading h then Loading
  else match error h with
       | Some _ => Error
       | None => if truthy (biography h) then Success else Idle
       end.

(** ** The spec's statements that the code does not meet, as written *)

(** A new submission clears the stored result while it is loading. *)
Definition result_cleared_while_loading (w : world) : Prop :=
  let w' := generateBiography true w in
  loading (ui w') = true -> biography (ui w') = [].

(** Cancel-and-replace: a second copy 1000 ms after the first keeps the
    acknowledgment for the 2000 ms that follow it. *)
Definition acknowledgment_restarts (w : world) (d : N) : Prop :=
  d < 2000 ->
  copied (ui (elapse d (copyToClipboard true
                (elapse 1000 (copyToClipboard true w))))) = true.

(** ** Sample worlds *)

Definition ada : jsstring := lit "Ada Lovelace, mathematician".

(** The page after "Ada Lovelace, mathematician" has been typed. *)
Definition typed : world := run true [Edit ada] mount.

(** The page once a first biography has been generated. *)
Definition generated : world :=
  run true [Edit ada; ClickGenerate; Settle 0 (Fulfilled (lit "  Hello world.  "))] mount.

(** ** The conditional parts of the render (lines 121-178) *)

(** What [Home] shows that depends on the hooks: the "Generate" button, the
    error box and the result card with its "Copy" button. *)
Record view : Type := View {
  button_disabled : bool;
  button_label : jsstring;
  error_box : option jsstring;
  result_card : option (jsstring * jsstring)   (* markdown source, copy label *)
}.

(** [disabled={loading || !bioInfo.trim()}], the two labels of line 126,
    [{error && ...}], and [{biography && ...}] with
    [{copied ? "Copied!" : "Copy"}].  The last code unit of the idle label is
    U+2728. *)
Definition render (h : hooks) : view :=
  View (generate_disabled h)
       (if loading h
        then lit "Creating Your Biography..."
        else lit "Generate Biography " ++ [10024])
       (match error h with
        | Some message => if truthy message then Some message else None
        | None => None
        end)
       (if truthy (biography h)
        then Some (biography h, if copied h then lit "Copied!" else lit "Copy")
        else None).

(** Events that run the handler: a click on "Generate" or a direct call. *)
Definition submits (e : event) : bool :=
  match e with
  | ClickGenerate | Invoke => true
  | _ => false
  end.

(** Events of the generation workflow, as opposed to the copy button and
    the clock. *)
Definition generation_event (e : event) : bool :=
  match e with
  | ClickCopy _ | Elapse _ => false
  | _ => true
  end.

(** Every queued reset is due within the next 2000 ms, and the
    acknowledgment is only up while one is queued. *)
Definition timers_inv (w : world) : Prop :=
  Forall (fun d => now w < d /\ d <= now w + 2000) (timers w)
  /\ (copied (ui w) = true -> timers w <> []).

(** The stored biography and the clipboard text are fixed by [trim]. *)
Definition trimmed_inv (w : world) : Prop :=
  trim (biography (ui w)) = biography (ui w) /\ trim (clipboard w) = clipboard w.

(** Page events other than a provider answer. *)
Definition page_event_but_answer (e : event) : bool :=
  match e with
  | Invoke | Settle _ _ => false
  | _ => true
  end.



(** * Properties *)

(** ** Trimming *)

Lemma blank_app (a b : jsstring) : blank a -> blank b -> blank (a ++ b).
Proof. unfold blank; intros Ha Hb; apply Forall_app; split; assumption. Qed.

Lemma trimStart_split (s : jsstring) :
  exists l, s = l ++ trimStart s /\ blank l.
Proof.
  induction s as [|c s [l [Hs Hl]]]; simpl.
  - exists []; split; [reflexivity | constructor].
  - destruct (isWhiteSpace c) eqn:Hc.
    + exists (c :: l); split; [simpl; congruence | constructor; assumption].
    + exists []; split; [reflexivity | constructor].
Qed.

Lemma trimStart_head (s : jsstring) c t :
  trimStart s = c :: t -> isWhiteSpace c = false.
Proof.
  induction s as [|x s IH]; simpl; [discriminate|].
  destruct (isWhiteSpace x) eqn:Hx; [exact IH|].
  intros [= <- _]; exact Hx.
Qed.

Lemma trimStart_snoc (u : jsstring) c :
  isWhiteSpace c = false -> exists u', trimStart (u ++ [c]) = u' ++ [c].
Proof.
  intros Hc; induction u as [|x u [u' IH]]; simpl.
  - rewrite Hc; exists []; reflexivity.
  - destruct (isWhiteSpace x).
    + exists u'; exact IH.
    + exists (x :: u); reflexivity.
Qed.

Lemma trimStart_blank (s : jsstring) : blank s -> trimStart s = [].
Proof.
  induction 1 as [|c s Hc _ IH]; simpl; [reflexivity|].
  rewrite Hc; exact IH.
Qed.

Lemma trimEnd_split (s : jsstring) :
  exists r, s = trimEnd s ++ r /\ blank r.
Proof.
  destruct (trimStart_split (rev s)) as [l [Hs Hl]].
  exists (rev l); split.
  - unfold trimEnd; rewrite <- rev_app_distr, <- Hs; symmetry; apply rev_involutive.
  - apply Forall_rev; exact Hl.
Qed.

Lemma trimEnd_last (s : jsstring) t c :
  trimEnd s = t ++ [c] -> isWhiteSpace c = false.
Proof.
  unfold trimEnd; intros H.
  apply (f_equal (@rev N)) in H.
  rewrite rev_involutive, rev_app_distr in H; simpl in H.
  exact (trimStart_head _ _ _ H).
Qed.

Lemma trimEnd_head c (t : jsstring) :
  isWhiteSpace c = false -> exists t', trimEnd (c :: t) = c :: t'.
Proof.
  intros Hc; unfold trimEnd; simpl rev.
  destruct (trimStart_snoc (rev t) c Hc) as [u' Hu].
  exists (rev u'); rewrite Hu, rev_app_distr; reflexivity.
Qed.

Lemma trim_blank (s : jsstring) : blank s -> trim s = [].
Proof. intros H; unfold trim; rewrite (trimStart_blank s H); reflexivity. Qed.

(** [trim s] is [s] without a blank prefix and a blank suffix, and neither
    starts nor ends with a strippable code unit. *)
Lemma trim_spec (s : jsstring) :
  (exists l r, s = l ++ trim s ++ r /\ blank l /\ blank r)
  /\ (forall c t, trim s = c :: t -> isWhiteSpace c = false)
  /\ (forall t c, trim s = t ++ [c] -> isWhiteSpace c = false).
Proof.
  destruct (trimStart_split s) as [l [Hs Hl]].
  destruct (trimEnd_split (trimStart s)) as [r [Hm Hr]].
  split; [|split].
  - exists l, r; split; [|split; assumption].
    unfold trim; rewrite <- Hm; exact Hs.
  - intros c t H; unfold trim in H.
    destruct (trimStart s) as [|x m] eqn:Hx; [discriminate H|].
    pose proof (trimStart_head _ _ _ Hx) as Hws.
    destruct (trimEnd_head x m Hws) as [t' Ht'].
    rewrite Ht' in H; injection H as <- _; exact Hws.
  - intros t c H; exact (trimEnd_last _ _ _ H).
Qed.

Example trim_hello :
  trim (lit "  Hello world.  ") = lit "Hello world.".
Proof. reflexivity. Qed.

Example trim_keeps_inner_breaks :
  trim ([9; 160] ++ lit "a  b" ++ [10] ++ lit "c" ++ [8232; 13]) = lit "a  b" ++ [10] ++ lit "c".
Proof. reflexivity. Qed.

(** ** Outstanding calls *)

Lemma existsb_eqb_In (id : nat) (l : list nat) :
  existsb (Nat.eqb id) l = true <-> In id l.
Proof.
  rewrite existsb_exists; split.
  - intros [x [Hx He]]; apply Nat.eqb_eq in He; subst; exact Hx.
  - intros H; exists id; split; [exact H | apply Nat.eqb_refl].
Qed.

(** An outstanding call that settles runs the rest of the handler, whichever
    call it is. *)
Lemma settle_pending (id : nat) (o : outcome) (w : world) :
  In id (pending w) -> ui (settle id o w) = resume o (ui w).
Proof.
  intros H; unfold settle.
  apply existsb_eqb_In in H; rewrite H; reflexivity.
Qed.

Lemma settle_calls (id : nat) (o : outcome) (w : world) :
  calls (settle id o w) = calls w.
Proof. unfold settle; destruct (existsb _ _); reflexivity. Qed.

Lemma generateBiography_accepted (w : world) :
  truthy (trim (bioInfo (ui w))) = true ->
  generateBiography true w =
    World (setError None (setLoading true (ui w)))
          (calls w ++ [prompt (bioType (ui w)) (bioInfo (ui w))])
          (pending w ++ [List.length (calls w)])
          (clipboard w) (now w) (timers w).
Proof. intros H; unfold generateBiography; rewrite H; reflexivity. Qed.

Lemma generateBiography_unconfigured (w : world) :
  truthy (trim (bioInfo (ui w))) = true ->
  generateBiography false w =
    with_ui (finally_clause (catch_clause (ErrorInstance not_configured)
                               (setError None (setLoading true (ui w))))) w.
Proof. intros H; unfold generateBiography; rewrite H; reflexivity. Qed.

(** ** What holds on the page *)

(** Either nothing is outstanding and the page is not loading, or exactly
    one call is, the page is loading and no error is stored; and a stored
    error excludes a stored result. *)
Definition page_inv (w : world) : Prop :=
  ((pending w = [] /\ loading (ui w) = false)
   \/ (exists id, pending w = [id] /\ loading (ui w) = true /\ error (ui w) = None))
  /\ (biography (ui w) = [] \/ error (ui w) = None).

Lemma page_inv_mount : page_inv mount.
Proof. split; left; split; reflexivity. Qed.

Lemma page_inv_step (genAI : bool) (w : world) (e : event) :
  from_page e = true -> page_inv w -> page_inv (step genAI w e).
Proof.
  intros He H; pose proof H as [Hp Hx].
  destruct e as [v|v| | |id o|written|dt]; simpl; try discriminate He.
  - split; assumption.
  - split; assumption.
  - unfold generate_disabled.
    destruct (loading (ui w)) eqn:Hl; simpl; [exact H|].
    destruct (truthy (trim (bioInfo (ui w)))) eqn:Ht; simpl; [|exact H].
    destruct Hp as [[Hp _]|[id [_ [Hl' _]]]]; [|congruence].
    destruct genAI.
    + rewrite (generateBiography_accepted w Ht); unfold page_inv; simpl.
      rewrite Hp; simpl.
      split; [right; eexists; repeat split | right; reflexivity].
    + rewrite (generateBiography_unconfigured w Ht); unfold page_inv; simpl.
      split; [left; split; [exact Hp | reflexivity] | left; reflexivity].
  - unfold settle.
    destruct (existsb (Nat.eqb id) (pending w)) eqn:Hin; [|exact H].
    destruct Hp as [[Hp _]|[id' [Hp [_ Herr]]]].
    + rewrite Hp in Hin; discriminate Hin.
    + unfold page_inv; rewrite Hp in Hin |- *; simpl in Hin |- *.
      rewrite orb_false_r in Hin; rewrite Hin; simpl.
      split; [left; split; [reflexivity | destruct o; reflexivity]|].
      destruct o as [text|err]; simpl; [right; exact Herr | left; reflexivity].
  - destruct (truthy (biography (ui w))); [|exact H].
    destruct written; [split; assumption | exact H].
  - unfold elapse, page_inv; simpl.
    destruct (filter _ (timers w)); simpl; split; assumption.
Qed.

Lemma page_inv_run (genAI : bool) (evs : list event) :
  forall w, forallb from_page evs = true -> page_inv w -> page_inv (run genAI evs w).
Proof.
  induction evs as [|e evs IH]; intros w Hev Hw; simpl in *; [exact Hw|].
  apply andb_prop in Hev as [He Hev].
  apply IH; [exact Hev | apply page_inv_step; assumption].
Qed.

(** ** Occurrences *)

Lemma occurs_in_middle (pre s post : jsstring) : occurs_in s (pre ++ s ++ post).
Proof. exists pre, post; reflexivity. Qed.

Lemma occurs_in_app_l (sub pre s : jsstring) :
  occurs_in sub s -> occurs_in sub (pre ++ s).
Proof.
  intros [a [b ->]]; exists (pre ++ a), b; rewrite app_assoc; reflexivity.
Qed.

Lemma limit_in_professional_tail :
  occurs_in (lit "Keep it between 150-300 words.") professional_tail.
Proof.
  exists (firstn 220 professional_tail), []; reflexivity.
Qed.

Lemma limit_in_social_tail :
  occurs_in (lit "Keep it under 160 characters.") social_tail.
Proof.
  exists (firstn 184 social_tail), []; reflexivity.
Qed.

(** ** The prompt *)

(** C3. The prompt is a function of the typed text and the selected style
    alone: it embeds the text verbatim between two fixed pieces, asks for
    150-300 words in the professional style and for under 160 characters in
    the social style, the two styles never give the same prompt, and the
    string handed to the provider is exactly this function of the two
    hooks. *)
Theorem prompt_embeds_input_and_style (rawInfo style : jsstring) :
  style = lit "professional" \/ style = lit "social" ->
  occurs_in rawInfo (prompt style rawInfo)
  /\ (style = lit "professional" ->
      occurs_in (lit "Keep it between 150-300 words.") (prompt style rawInfo))
  /\ (style = lit "social" ->
      occurs_in (lit "Keep it under 160 characters.") (prompt style rawInfo))
  /\ prompt (lit "professional") rawInfo <> prompt (lit "social") rawInfo
  /\ (forall w : world,
        bioInfo (ui w) = rawInfo -> bioType (ui w) = style ->
        truthy (trim rawInfo) = true ->
        calls (generateBiography true w) = calls w ++ [prompt style rawInfo]).
Proof.
  intros Hstyle; repeat split.
  - destruct Hstyle as [-> | ->]; apply occurs_in_middle.
  - intros ->; unfold prompt; simpl str_eqb; cbv iota.
    do 2 apply occurs_in_app_l; exact limit_in_professional_tail.
  - intros ->; unfold prompt; simpl str_eqb; cbv iota.
    do 2 apply occurs_in_app_l; exact limit_in_social_tail.
  - intros H; vm_compute in H; discriminate H.
  - intros w Hi Ht Hne; subst.
    rewrite generateBiography_accepted by exact Hne; reflexivity.
Qed.

Lemma prompt_embeds_input_and_style_witness :
  occurs_in ada (prompt (lit "social") ada)
  /\ occurs_in (lit "Keep it under 160 characters.") (prompt (lit "social") ada)
  /\ calls (generateBiography true (with_ui (setBioType (lit "social") (ui typed)) typed))
     = [prompt (lit "social") ada].
Proof.
  pose proof (prompt_embeds_input_and_style ada (lit "social") (or_intror eq_refl))
    as [H1 [_ [H3 [_ H5]]]].
  split; [exact H1 | split; [exact (H3 eq_refl)|]].
  exact (H5 (with_ui (setBioType (lit "social") (ui typed)) typed)
            eq_refl eq_refl eq_refl).
Defined.

(** ** The input guard *)

(** C4. With an empty or whitespace-only text the handler returns at line
    47: the whole state, provider log included, is what it was, whether the
    handler is called directly or through the button. *)
Theorem blank_submission_is_noop (genAI : bool) (w : world) :
  blank (bioInfo (ui w)) ->
  generateBiography genAI w = w
  /\ step genAI w ClickGenerate = w
  /\ phase_of (ui (generateBiography genAI w)) = phase_of (ui w)
  /\ calls (generateBiography genAI w) = calls w.
Proof.
  intros Hb.
  assert (Hg : generateBiography genAI w = w).
  { unfold generateBiography; rewrite (trim_blank _ Hb); reflexivity. }
  repeat split; try (rewrite Hg; reflexivity).
  simpl; destruct (generate_disabled (ui w)); [reflexivity | exact Hg].
Qed.

Lemma blank_submission_is_noop_witness :
  let w := run true [Edit (lit " " ++ [9; 10; 160])] generated in
  generateBiography true w = w /\ step true w ClickGenerate = w.
Proof.
  intros w.
  assert (Hb : blank (bioInfo (ui w))) by (repeat constructor).
  destruct (blank_submission_is_noop true w Hb) as [H1 [H2 _]].
  split; [exact H1 | exact H2].
Defined.

(** ** Failures *)

Lemma calls_unconfigured_step (w : world) (e : event) :
  calls (step false w e) = calls w.
Proof.
  destruct e as [v|v| | |id o|written|dt]; simpl; try reflexivity.
  - destruct (generate_disabled (ui w)); [reflexivity|].
    unfold generateBiography; destruct (negb _); reflexivity.
  - unfold generateBiography; destruct (negb _); reflexivity.
  - apply settle_calls.
  - destruct (truthy _); [destruct written|]; reflexivity.
Qed.

Lemma calls_unconfigured_run (evs : list event) :
  forall w, calls (run false evs w) = calls w.
Proof.
  induction evs as [|e evs IH]; intros w; simpl; [reflexivity|].
  rewrite IH; apply calls_unconfigured_step.
Qed.

(** C5. Without a provider client, a submission whose text is not blank
    ends in the Error phase with the message "API key not configured.
    Please add your Gemini API key to continue.", which the page renders in
    its error box and which is not the generic one; the result is cleared,
    nothing is handed to the provider and nothing is left outstanding.
    Whatever happens on such a page, the provider is never called. *)
Theorem missing_credential_fails_without_call (w : world) :
  truthy (trim (bioInfo (ui w))) = true ->
  let w' := generateBiography false w in
  phase_of (ui w') = Error
  /\ error (ui w') = Some not_configured
  /\ biography (ui w') = []
  /\ calls w' = calls w
  /\ pending w' = pending w
  /\ not_configured <> generic_failure
  /\ (forall evs, List.length (calls (run false evs mount)) = 0%nat)
  /\ error (ui w') =
     Some (lit "API key not configured. Please add your Gemini API key to continue.")
  /\ occurs_in (lit "API key not configured") not_configured
  /\ error_box (render (ui w')) = Some not_configured
  /\ result_card (render (ui w')) = None.
Proof.
  intros H w'; subst w'.
  rewrite (generateBiography_unconfigured w H).
  repeat split.
  - intros E; vm_compute in E; discriminate E.
  - intros evs; rewrite calls_unconfigured_run; reflexivity.
  - exists [], (skipn 22 not_configured); reflexivity.
Qed.

Lemma missing_credential_fails_without_call_witness :
  phase_of (ui (generateBiography false typed)) = Error
  /\ error (ui (generateBiography false typed)) =
     Some (lit "API key not configured. Please add your Gemini API key to continue.")
  /\ error_box (render (ui (generateBiography false typed))) = Some not_configured
  /\ calls (generateBiography false typed) = [].
Proof.
  pose proof (missing_credential_fails_without_call typed eq_refl)
    as [H1 [_ [_ [H4 [_ [_ [_ [H8 [_ [H10 _]]]]]]]]]].
  split; [exact H1 | split; [exact H8 | split; [exact H10 | exact H4]]].
Defined.

(** C6. When the awaited call fails, the page is in the Error phase; the
    stored message is the [message] of the thrown [Error] when the thrown
    value is one, and the generic "An error occurred while generating the
    biography" otherwise. *)
Theorem provider_failure_message (w : world) (id : nat) (err : thrown) :
  In id (pending w) ->
  let h := ui (settle id (Rejected err) w) in
  phase_of h = Error
  /\ (forall message, err = ErrorInstance message -> error h = Some message)
  /\ (err = OtherValue -> error h = Some generic_failure)
  /\ occurs_in (lit "An error occurred") generic_failure.
Proof.
  intros Hin h; subst h; rewrite (settle_pending id _ w Hin).
  repeat split.
  - intros message ->; reflexivity.
  - intros ->; reflexivity.
  - exists [], (skipn 17 generic_failure); reflexivity.
Qed.

Lemma provider_failure_message_witness :
  let w := run true [Edit ada; ClickGenerate] mount in
  let h := ui (settle 0 (Rejected (ErrorInstance (lit "rate limited"))) w) in
  phase_of h = Error /\ error h = Some (lit "rate limited").
Proof.
  intros w h.
  assert (Hin : In 0%nat (pending w)) by (left; reflexivity).
  pose proof (provider_failure_message w 0 (ErrorInstance (lit "rate limited")) Hin)
    as [H1 [H2 _]].
  split; [exact H1 | exact (H2 _ eq_refl)].
Defined.

(** ** Success *)

(** C7. When the awaited call succeeds, the stored biography is the
    response text trimmed: the text is a blank prefix, the biography, and
    a blank suffix, and the biography neither starts nor ends with a
    strippable code unit.  Nothing else is done to it, and of the other
    hooks only [loading] changes. *)
Theorem success_stores_trimmed_text (w : world) (id : nat) (text : jsstring) :
  In id (pending w) ->
  let h := ui (settle id (Fulfilled text) w) in
  h = setLoading false (setBiography (trim text) (ui w))
  /\ biography h = trim text
  /\ (exists l r, text = l ++ biography h ++ r /\ blank l /\ blank r)
  /\ (forall c t, biography h = c :: t -> isWhiteSpace c = false)
  /\ (forall t c, biography h = t ++ [c] -> isWhiteSpace c = false).
Proof.
  intros Hin h; subst h; rewrite (settle_pending id _ w Hin).
  destruct (trim_spec text) as [H1 [H2 H3]].
  split; [reflexivity | split; [reflexivity | split; [exact H1 | split; assumption]]].
Qed.

Lemma success_stores_trimmed_text_witness :
  let w := run true [Edit ada; ClickGenerate] mount in
  biography (ui (settle 0 (Fulfilled (lit "  Hello world.  ")) w)) = lit "Hello world.".
Proof.
  intros w.
  assert (Hin : In 0%nat (pending w)) by (left; reflexivity).
  pose proof (success_stores_trimmed_text w 0 (lit "  Hello world.  ") Hin)
    as [_ [H2 _]].
  exact H2.
Defined.

(** ** Overlapping calls *)

Lemma settle_rest (id : nat) (o : outcome) (w : world) :
  In id (pending w) ->
  pending (settle id o w) = filter (fun j => negb (Nat.eqb id j)) (pending w).
Proof.
  intros H; unfold settle.
  apply existsb_eqb_In in H; rewrite H; reflexivity.
Qed.

(** Called directly a second time while the first call is outstanding,
    which the page never does, the handler has two calls outstanding; when
    the first answers last, the rest of the handler runs for the second
    and then for the first, on top of what the second left. *)
Lemma direct_calls_apply_late_answer (w : world) (oA oB : outcome) :
  truthy (trim (bioInfo (ui w))) = true ->
  let a := List.length (calls w) in
  let issued := generateBiography true (generateBiography true w) in
  ui (settle a oA (settle (S a) oB issued)) = resume oA (resume oB (ui issued)).
Proof.
  intros Hne a issued.
  assert (Hp : pending issued = (pending w ++ [a]) ++ [S a]).
  { subst issued; rewrite (generateBiography_accepted w Hne).
    rewrite generateBiography_accepted by exact Hne.
    simpl; rewrite length_app, Nat.add_comm; reflexivity. }
  assert (HB : In (S a) (pending issued)).
  { rewrite Hp; apply in_or_app; right; left; reflexivity. }
  assert (HA : In a (pending (settle (S a) oB issued))).
  { rewrite (settle_rest _ _ _ HB), Hp; apply filter_In; split.
    - apply in_or_app; left; apply in_or_app; right; left; reflexivity.
    - apply negb_true_iff, Nat.eqb_neq; lia. }
  rewrite (settle_pending _ _ _ HA), (settle_pending _ _ _ HB); reflexivity.
Qed.





(** ** Result and error *)

(** C2. On the page, a stored result and a stored error never coexist; and
    every way into the Error phase (a failed call, a missing client) empties
    the result while storing the message. *)
Theorem result_and_error_exclusive (genAI : bool) (evs : list event) :
  forallb from_page evs = true ->
  let h := ui (run genAI evs mount) in
  (biography h = [] \/ error h = None)
  /\ (forall w id err, In id (pending w) ->
        biography (ui (settle id (Rejected err) w)) = []
        /\ error (ui (settle id (Rejected err) w)) <> None)
  /\ (forall w, truthy (trim (bioInfo (ui w))) = true ->
        biography (ui (generateBiography false w)) = []
        /\ error (ui (generateBiography false w)) <> None).
Proof.
  intros Hev h; subst h; split; [|split].
  - exact (proj2 (page_inv_run genAI evs mount Hev page_inv_mount)).
  - intros w id err Hin; rewrite (settle_pending _ _ _ Hin).
    split; [reflexivity | destruct err; discriminate].
  - intros w Hne; rewrite (generateBiography_unconfigured w Hne).
    split; [reflexivity | discriminate].
Qed.

Lemma result_and_error_exclusive_witness :
  let h := ui (run true [ClickGenerate; Settle 1 (Rejected OtherValue)] generated) in
  biography h = [] /\ error h = Some generic_failure.
Proof.
  pose proof (result_and_error_exclusive true
    [Edit ada; ClickGenerate; Settle 0 (Fulfilled (lit "  Hello world.  "));
     ClickGenerate; Settle 1 (Rejected OtherValue)] eq_refl) as [H _].
  destruct H as [H|H]; [|discriminate H].
  split; [exact H | reflexivity].
Defined.

(** Called directly, twice in a row, the handler can leave both stored: the
    first call fails, the second succeeds afterwards and the message of the
    first stays.  The button rules this sequence out. *)
Example direct_calls_can_store_both :
  let h := ui (run true [Invoke; Invoke; Settle 0 (Rejected OtherValue);
                         Settle 1 (Fulfilled (lit "Second"))] typed) in
  biography h = lit "Second" /\ error h = Some generic_failure.
Proof. split; reflexivity. Qed.

(** ** A new submission *)

(** C8, as the spec states it, fails: a submission made while a biography
    is shown puts the page in the Loading phase with that biography still
    stored. *)
Lemma result_survives_submission :
  ~ result_cleared_while_loading generated.
Proof.
  intros H; specialize (H eq_refl); vm_compute in H; discriminate H.
Qed.

(** C8, amended.  With a provider client, an accepted submission enters
    the Loading phase, clears the stored error and leaves the stored
    biography as it was; the biography is replaced when the call succeeds
    and emptied when it fails.  With no client, an accepted submission goes
    at once to the Error phase with the configuration message, and the
    biography is emptied at once. *)
Theorem submission_keeps_result_until_settled (genAI : bool) (w : world) :
  truthy (trim (bioInfo (ui w))) = true ->
  let w' := generateBiography genAI w in
  (genAI = true ->
     phase_of (ui w') = Loading
     /\ error (ui w') = None
     /\ biography (ui w') = biography (ui w)
     /\ In (List.length (calls w)) (pending w')
     /\ (forall id text, In id (pending w') ->
           biography (ui (settle id (Fulfilled text) w')) = trim text)
     /\ (forall id err, In id (pending w') ->
           biography (ui (settle id (Rejected err) w')) = []))
  /\ (genAI = false ->
      phase_of (ui w') = Error
      /\ error (ui w') = Some not_configured
      /\ biography (ui w') = []
      /\ pending w' = pending w).
Proof.
  intros Hne w'; subst w'; split; intros ->.
  - rewrite (generateBiography_accepted w Hne).
    repeat split.
    + simpl; apply in_or_app; right; left; reflexivity.
    + intros id text Hin; rewrite (settle_pending _ _ _ Hin); reflexivity.
    + intros id err Hin; rewrite (settle_pending _ _ _ Hin); reflexivity.
  - rewrite (generateBiography_unconfigured w Hne); repeat split.
Qed.

Lemma submission_keeps_result_until_settled_witness :
  phase_of (ui (generateBiography true generated)) = Loading
  /\ biography (ui (generateBiography true generated)) = lit "Hello world."
  /\ phase_of (ui (generateBiography false generated)) = Error
  /\ biography (ui (generateBiography false generated)) = [].
Proof.
  pose proof (submission_keeps_result_until_settled true generated eq_refl)
    as [Hc _].
  pose proof (submission_keeps_result_until_settled false generated eq_refl)
    as [_ Hn].
  destruct (Hc eq_refl) as [H1 [_ [H3 _]]].
  destruct (Hn eq_refl) as [K1 [_ [K3 _]]].
  split; [exact H1 | split; [exact H3 | split; [exact K1 | exact K3]]].
Defined.

(** C10. An accepted submission does not stay in the Loading phase: with
    no client [loading] is false again when the handler returns; with a
    client the call is outstanding and, however and whenever it settles,
    [loading] is false afterwards.  On the page [loading] is true exactly
    while a call is outstanding. *)
Theorem loading_reset_when_settled (genAI : bool) (w : world) :
  truthy (trim (bioInfo (ui w))) = true ->
  let w' := generateBiography genAI w in
  (genAI = false -> loading (ui w') = false /\ pending w' = pending w)
  /\ (genAI = true ->
      loading (ui w') = true /\ In (List.length (calls w)) (pending w'))
  /\ (forall id o, In id (pending w') -> loading (ui (settle id o w')) = false)
  /\ (forall evs, forallb from_page evs = true ->
        let p := run genAI evs mount in
        loading (ui p) = true <-> pending p <> []).
Proof.
  intros Hne w'; subst w'; repeat split.
  - subst genAI; rewrite (generateBiography_unconfigured w Hne); reflexivity.
  - subst genAI; rewrite (generateBiography_unconfigured w Hne); reflexivity.
  - subst genAI; rewrite (generateBiography_accepted w Hne); reflexivity.
  - subst genAI; rewrite (generateBiography_accepted w Hne); simpl.
    apply in_or_app; right; left; reflexivity.
  - intros id o Hin; rewrite (settle_pending _ _ _ Hin).
    destruct o; reflexivity.
  - destruct (page_inv_run genAI evs mount H page_inv_mount)
      as [[[Hp Hl]|[id [Hp [Hl _]]]] _]; intros E; congruence.
  - destruct (page_inv_run genAI evs mount H page_inv_mount)
      as [[[Hp Hl]|[id [Hp [Hl _]]]] _]; intros E; congruence.
Qed.

Lemma loading_reset_when_settled_witness :
  loading (ui (generateBiography true typed)) = true
  /\ loading (ui (settle 0 (Rejected OtherValue) (generateBiography true typed))) = false
  /\ loading (ui (generateBiography false typed)) = false.
Proof.
  pose proof (loading_reset_when_settled true typed eq_refl) as [_ [H2 [H3 _]]].
  pose proof (loading_reset_when_settled false typed eq_refl) as [H1 _].
  split; [exact (proj1 (H2 eq_refl))|].
  split; [exact (H3 0%nat (Rejected OtherValue) (or_introl eq_refl))|].
  exact (proj1 (H1 eq_refl)).
Defined.

(** ** The copy acknowledgment *)

Lemma elapse_fires (dt : N) (w : world) (d : N) :
  In d (timers w) -> d <= now w + dt -> copied (ui (elapse dt w)) = false.
Proof.
  intros Hin Hle; unfold elapse; simpl.
  destruct (filter (fun d0 => d0 <=? now w + dt) (timers w)) eqn:Hf; [|reflexivity].
  assert (Hd : In d (filter (fun d0 => d0 <=? now w + dt) (timers w))).
  { apply filter_In; split; [exact Hin | apply N.leb_le; exact Hle]. }
  rewrite Hf in Hd; destruct Hd.
Qed.

Lemma elapse_quiet (dt : N) (w : world) :
  (forall d, In d (timers w) -> now w + dt < d) ->
  copied (ui (elapse dt w)) = copied (ui w).
Proof.
  intros Hall; unfold elapse; simpl.
  destruct (filter (fun d0 => d0 <=? now w + dt) (timers w)) as [|d l] eqn:Hf;
    [reflexivity|].
  assert (Hd : In d (filter (fun d0 => d0 <=? now w + dt) (timers w)))
    by (rewrite Hf; left; reflexivity).
  apply filter_In in Hd as [Hin Hle]; apply N.leb_le in Hle.
  specialize (Hall d Hin); lia.
Qed.

Lemma elapse_keeps (dt : N) (w : world) (d : N) :
  In d (timers w) -> now w + dt < d -> In d (timers (elapse dt w)).
Proof.
  intros Hin Hlt; unfold elapse; simpl.
  apply filter_In; split; [exact Hin|].
  apply negb_true_iff, N.leb_gt; exact Hlt.
Qed.

(** C9, as the spec states it, fails: with a second copy 1000 ms after the
    first, the acknowledgment is gone 1000 ms after the second copy. *)
Lemma second_copy_does_not_restart :
  ~ acknowledgment_restarts generated 1000.
Proof.
  intros H; specialize (H eq_refl); vm_compute in H; discriminate H.
Qed.

(** C9, amended.  A copy writes the biography to the clipboard, sets
    [copied] and queues one reset 2000 ms ahead; no queued reset is ever
    cancelled.  With no further copy the flag is false once 2000 ms have
    passed.  After a second copy made [d1 < 2000] ms after the first, the
    flag is false as soon as 2000 ms have passed since the FIRST copy; with
    no older reset queued it is true before that. *)
Theorem copy_resets_are_not_cancelled (w : world) :
  copied (ui (copyToClipboard true w)) = true
  /\ clipboard (copyToClipboard true w) = biography (ui w)
  /\ timers (copyToClipboard true w) = timers w ++ [now w + 2000]
  /\ (forall d, 2000 <= d ->
        copied (ui (elapse d (copyToClipboard true w))) = false)
  /\ (forall d1 d2, d1 < 2000 -> 2000 <= d1 + d2 ->
        copied (ui (elapse d2 (copyToClipboard true
                      (elapse d1 (copyToClipboard true w))))) = false)
  /\ (timers w = [] -> forall d1 d2, d1 + d2 < 2000 ->
        copied (ui (elapse d2 (copyToClipboard true
                      (elapse d1 (copyToClipboard true w))))) = true).
Proof.
  split; [reflexivity | split; [reflexivity | split; [reflexivity|]]].
  assert (Hq : In (now w + 2000) (timers (copyToClipboard true w))).
  { simpl; apply in_or_app; right; left; reflexivity. }
  split; [|split].
  - intros d Hd; apply (elapse_fires d _ (now w + 2000) Hq); simpl; lia.
  - intros d1 d2 H1 H2.
    apply (elapse_fires d2 _ (now w + 2000)).
    + simpl; apply in_or_app; left.
      apply (elapse_keeps d1 _ _ Hq); simpl; lia.
    + simpl; lia.
  - intros Hnone d1 d2 Hlt.
    rewrite elapse_quiet; [reflexivity|].
    simpl; rewrite Hnone; simpl.
    assert (Hle : (now w + 2000 <=? now w + d1) = false) by (apply N.leb_gt; lia).
    rewrite Hle; simpl.
    intros d [<- | [<- | []]]; lia.
Qed.

Lemma copy_resets_are_not_cancelled_witness :
  copied (ui (run true [ClickCopy true; Elapse 1000; ClickCopy true; Elapse 999] generated)) = true
  /\ copied (ui (run true [ClickCopy true; Elapse 1000; ClickCopy true; Elapse 1000] generated)) = false
  /\ copied (ui (run true [ClickCopy true; Elapse 2000] generated)) = false.
Proof.
  pose proof (copy_resets_are_not_cancelled generated) as [_ [_ [_ [H4 [H5 H6]]]]].
  split; [apply (H6 eq_refl 1000 999); reflexivity|].
  split; [apply (H5 1000 1000); [reflexivity | discriminate]|].
  apply (H4 2000); discriminate.
Defined.

(** * Further properties of the handlers and of the render *)

(** ** What the guard lets through *)

Lemma blank_forallb (s : jsstring) :
  forallb isWhiteSpace s = true <-> blank s.
Proof. unfold blank; rewrite forallb_forall, Forall_forall; reflexivity. Qed.

Lemma trim_nil_blank (s : jsstring) : trim s = [] -> blank s.
Proof.
  intros H; destruct (trim_spec s) as [[l [r [Hs [Hl Hr]]]] _].
  rewrite H in Hs; rewrite Hs; apply blank_app; assumption.
Qed.

Lemma truthy_trim (s : jsstring) :
  truthy (trim s) = negb (forallb isWhiteSpace s).
Proof.
  destruct (forallb isWhiteSpace s) eqn:Hb; simpl.
  - apply blank_forallb in Hb; rewrite (trim_blank s Hb); reflexivity.
  - destruct (trim s) eqn:Ht; [|reflexivity].
    apply trim_nil_blank, blank_forallb in Ht; congruence.
Qed.

(** The guard of line 47 and the [disabled] attribute of line 123 stop a
    text exactly when every code unit of it is whitespace: the button is
    disabled when loading or when the text is all whitespace, and the
    handler hands a prompt to the provider when at least one code unit is
    not whitespace and does nothing otherwise. *)
Theorem guard_stops_exactly_blank_text (w : world) :
  generate_disabled (ui w) = loading (ui w) || forallb isWhiteSpace (bioInfo (ui w))
  /\ calls (generateBiography true w) =
     (if forallb isWhiteSpace (bioInfo (ui w))
      then calls w
      else calls w ++ [prompt (bioType (ui w)) (bioInfo (ui w))])
  /\ generateBiography false w =
     (if forallb isWhiteSpace (bioInfo (ui w))
      then w
      else with_ui (Hooks (bioInfo (ui w)) (bioType (ui w)) [] false
                          (copied (ui w)) (Some not_configured)) w).
Proof.
  unfold generate_disabled, generateBiography; rewrite truthy_trim, negb_involutive.
  destruct (forallb isWhiteSpace (bioInfo (ui w))); repeat split; reflexivity.
Qed.

(** The handler called through an enabled button is the handler; while
    loading, a click does nothing.  The button's own test of the text adds
    nothing to the handler's. *)
Theorem click_is_call_unless_loading (genAI : bool) (w : world) :
  step genAI w ClickGenerate =
    if loading (ui w) then w else generateBiography genAI w.
Proof.
  simpl; unfold generate_disabled.
  destruct (loading (ui w)); simpl; [reflexivity|].
  unfold generateBiography.
  destruct (negb (truthy (trim (bioInfo (ui w))))); reflexivity.
Qed.

(** ** Stored text is trimmed *)

Lemma trimStart_fixed (s : jsstring) :
  (forall c t, s = c :: t -> isWhiteSpace c = false) -> trimStart s = s.
Proof.
  destruct s as [|c t]; intros H; simpl; [reflexivity|].
  rewrite (H c t eq_refl); reflexivity.
Qed.

Lemma trimEnd_fixed (s : jsstring) :
  (forall t c, s = t ++ [c] -> isWhiteSpace c = false) -> trimEnd s = s.
Proof.
  intros H; unfold trimEnd.
  rewrite trimStart_fixed; [apply rev_involutive|].
  intros c t Hr; apply (H (rev t) c).
  rewrite <- (rev_involutive s), Hr; reflexivity.
Qed.

Lemma trim_idempotent (s : jsstring) : trim (trim s) = trim s.
Proof.
  destruct (trim_spec s) as [_ [Hh Hl]].
  unfold trim at 1; rewrite trimStart_fixed by exact Hh.
  apply trimEnd_fixed; exact Hl.
Qed.

Lemma trimmed_inv_step (genAI : bool) (w : world) (e : event) :
  trimmed_inv w -> trimmed_inv (step genAI w e).
Proof.
  intros H; pose proof H as [Hb Hc].
  assert (Hg : trimmed_inv (generateBiography genAI w)).
  { unfold generateBiography.
    destruct (negb (truthy _)); [exact H|].
    destruct (negb genAI); split; simpl; solve [assumption | reflexivity]. }
  destruct e as [v|v| | |id o|written|dt]; simpl.
  - exact H.
  - exact H.
  - destruct (generate_disabled (ui w)); [exact H | exact Hg].
  - exact Hg.
  - unfold settle; destruct (existsb _ _); [|exact H].
    destruct o as [text|err]; split; simpl;
      solve [assumption | reflexivity | apply trim_idempotent].
  - destruct (truthy _); [|exact H].
    destruct written; [split; simpl; assumption | exact H].
  - unfold elapse; split; simpl; [|exact Hc].
    destruct (filter _ _); exact Hb.
Qed.

(** Whatever happens on the page or through direct calls of the handler,
    the stored biography and the text the page last wrote to the clipboard
    are fixed by [trim]: they neither start nor end with whitespace. *)
Theorem stored_text_is_trimmed (genAI : bool) (evs : list event) :
  let w := run genAI evs mount in
  trim (biography (ui w)) = biography (ui w)
  /\ trim (clipboard w) = clipboard w
  /\ (forall c t, biography (ui w) = c :: t -> isWhiteSpace c = false)
  /\ (forall t c, biography (ui w) = t ++ [c] -> isWhiteSpace c = false).
Proof.
  assert (H : forall evs w, trimmed_inv w -> trimmed_inv (run genAI evs w)).
  { clear evs; induction evs as [|e evs IH]; intros w Hw; simpl; [exact Hw|].
    apply IH, trimmed_inv_step, Hw. }
  intros w; destruct (H evs mount) as [Hb Hc]; [split; reflexivity|].
  fold w in Hb, Hc.
  destruct (trim_spec (biography (ui w))) as [_ [Hh Hl]]; rewrite Hb in Hh, Hl.
  split; [exact Hb | split; [exact Hc | split; assumption]].
Qed.

Lemma stored_text_is_trimmed_witness :
  let w := run true [Edit ada; Invoke;
                     Settle 0 (Fulfilled ([9] ++ lit " Born in London. " ++ [10]));
                     ClickCopy true] mount in
  biography (ui w) = lit "Born in London."
  /\ clipboard w = lit "Born in London."
  /\ isWhiteSpace 66 = false.
Proof.
  intros w.
  pose proof (stored_text_is_trimmed true
    [Edit ada; Invoke;
     Settle 0 (Fulfilled ([9] ++ lit " Born in London. " ++ [10]));
     ClickCopy true]) as [_ [_ [Hh _]]].
  split; [reflexivity | split; [reflexivity|]].
  exact (Hh 66 (lit "orn in London.") eq_refl).
Defined.

(** ** The acknowledgment is bounded by its timers *)

Lemma filter_none_due (t : N) (l : list N) :
  filter (fun d => d <=? t) l = [] -> filter (fun d => negb (d <=? t)) l = l.
Proof.
  induction l as [|d l IH]; simpl; [reflexivity|].
  destruct (d <=? t); simpl; [discriminate|].
  intros H; rewrite (IH H); reflexivity.
Qed.

Lemma timers_inv_elapse (dt : N) (w : world) :
  timers_inv w -> timers_inv (elapse dt w).
Proof.
  intros [Hd Hc]; unfold timers_inv, elapse; simpl; split.
  - rewrite Forall_forall in Hd |- *; intros d Hin.
    apply filter_In in Hin as [Hin Hgt].
    apply negb_true_iff, N.leb_gt in Hgt.
    destruct (Hd d Hin); lia.
  - destruct (filter (fun d => d <=? now w + dt) (timers w)) eqn:Hf; simpl.
    + rewrite (filter_none_due _ _ Hf); exact Hc.
    + discriminate.
Qed.

Lemma timers_inv_step (genAI : bool) (w : world) (e : event) :
  timers_inv w -> timers_inv (step genAI w e).
Proof.
  intros H; pose proof H as [Hd Hc].
  assert (Hg : timers_inv (generateBiography genAI w)).
  { unfold generateBiography.
    destruct (negb (truthy _)); [exact H|].
    destruct (negb genAI); split; assumption. }
  destruct e as [v|v| | |id o|written|dt]; simpl.
  - split; assumption.
  - split; assumption.
  - destruct (generate_disabled (ui w)); [exact H | exact Hg].
  - exact Hg.
  - unfold settle; destruct (existsb _ _); [|exact H].
    destruct o; split; assumption.
  - destruct (truthy _); [|exact H].
    destruct written; [|exact H].
    split; simpl.
    + apply Forall_app; split; [exact Hd|].
      constructor; [lia | constructor].
    + intros _ E; apply app_eq_nil in E as [_ E]; discriminate E.
  - apply timers_inv_elapse; exact H.
Qed.

Lemma timers_inv_run (genAI : bool) (evs : list event) :
  forall w, timers_inv w -> timers_inv (run genAI evs w).
Proof.
  induction evs as [|e evs IH]; intros w Hw; simpl; [exact Hw|].
  apply IH, timers_inv_step, Hw.
Qed.

(** The "Copied!" acknowledgment is transient.  In every state reached
    from the first render, each queued reset is due within the next
    2000 ms and the flag is only up while a reset is queued; so once
    2000 ms pass with no event the flag is down and no reset is left. *)
Theorem acknowledgment_expires (genAI : bool) (evs : list event) (d : N) :
  2000 <= d ->
  let w := run genAI evs mount in
  Forall (fun t => now w < t /\ t <= now w + 2000) (timers w)
  /\ (copied (ui w) = true -> timers w <> [])
  /\ copied (ui (elapse d w)) = false
  /\ timers (elapse d w) = [].
Proof.
  intros Hd w.
  destruct (timers_inv_run genAI evs mount) as [Hq Hc];
    [split; [constructor | discriminate]|].
  fold w in Hq, Hc.
  split; [exact Hq | split; [exact Hc|]].
  assert (Hall : filter (fun t => negb (t <=? now w + d)) (timers w) = []).
  { rewrite Forall_forall in Hq.
    destruct (filter _ _) as [|t l] eqn:Hf; [reflexivity|].
    assert (Hin : In t (filter (fun t => negb (t <=? now w + d)) (timers w)))
      by (rewrite Hf; left; reflexivity).
    apply filter_In in Hin as [Hin Hgt].
    apply negb_true_iff, N.leb_gt in Hgt.
    destruct (Hq t Hin); lia. }
  split; [|exact Hall].
  destruct (timers w) as [|t l] eqn:Ht.
  - unfold elapse; rewrite Ht; simpl.
    destruct (copied (ui w)) eqn:E; [|reflexivity].
    exfalso; exact (Hc eq_refl eq_refl).
  - apply (elapse_fires d w t); [rewrite Ht; left; reflexivity|].
    rewrite Forall_forall in Hq.
    destruct (Hq t); [left; reflexivity | lia].
Qed.

Lemma acknowledgment_expires_witness :
  let w := run true [ClickCopy true; Elapse 1500; ClickCopy true; Elapse 400] generated in
  copied (ui w) = true /\ copied (ui (elapse 2000 w)) = false /\ timers (elapse 2000 w) = [].
Proof.
  intros w.
  assert (Hd : 2000 <= 2000) by discriminate.
  pose proof (acknowledgment_expires true
    [Edit ada; ClickGenerate; Settle 0 (Fulfilled (lit "  Hello world.  "));
     ClickCopy true; Elapse 1500; ClickCopy true; Elapse 400] 2000 Hd)
    as [_ [_ [H3 H4]]].
  split; [reflexivity | split; [exact H3 | exact H4]].
Defined.

(** ** The prompt determines its inputs *)

Lemma str_eqb_eq (a b : jsstring) : str_eqb a b = true <-> a = b.
Proof.
  revert b; induction a as [|x a IH]; intros [|y b]; simpl;
    try (split; [discriminate | discriminate]); [split; reflexivity|].
  rewrite andb_true_iff, N.eqb_eq, IH; split.
  - intros [-> ->]; reflexivity.
  - intros [= -> ->]; split; reflexivity.
Qed.

Lemma templates_differ (r1 r2 : jsstring) :
  professional_head ++ r1 ++ professional_tail <> social_head ++ r2 ++ social_tail.
Proof.
  intros H; apply (f_equal (firstn 10)) in H.
  rewrite !firstn_app in H; vm_compute in H; discriminate H.
Qed.

(** The exact string ['professional'] selects the professional template
    and every other style the social one.  The two templates never produce
    the same prompt, and within a template the prompt determines the text
    it embeds: equal prompts come from equal texts and from the same
    template. *)
Theorem prompt_determines_text_and_template (s1 s2 r1 r2 : jsstring) :
  prompt (lit "professional") r1 = professional_head ++ r1 ++ professional_tail
  /\ (s1 <> lit "professional" -> prompt s1 r1 = social_head ++ r1 ++ social_tail)
  /\ professional_head ++ r1 ++ professional_tail <> social_head ++ r2 ++ social_tail
  /\ (prompt s1 r1 = prompt s2 r2 ->
      r1 = r2 /\ (s1 = lit "professional" <-> s2 = lit "professional")).
Proof.
  split; [reflexivity | split; [|split; [apply templates_differ|]]].
  - intros Hs; unfold prompt.
    destruct (str_eqb s1 (lit "professional")) eqn:E; [|reflexivity].
    apply str_eqb_eq in E; contradiction.
  - unfold prompt; intros H.
    assert (Hiff : str_eqb s1 (lit "professional") = str_eqb s2 (lit "professional")
                   -> (s1 = lit "professional" <-> s2 = lit "professional"))
      by (intros E; rewrite <- !str_eqb_eq, E; reflexivity).
    destruct (str_eqb s1 (lit "professional")), (str_eqb s2 (lit "professional")).
    + apply app_inv_head, app_inv_tail in H; split; [exact H | exact (Hiff eq_refl)].
    + exfalso; exact (templates_differ _ _ H).
    + exfalso; exact (templates_differ _ _ (eq_sym H)).
    + apply app_inv_head, app_inv_tail in H; split; [exact H | exact (Hiff eq_refl)].
Qed.

Lemma prompt_determines_text_and_template_witness :
  prompt (lit "professional") ada = professional_head ++ ada ++ professional_tail
  /\ prompt (lit "Professional") ada = social_head ++ ada ++ social_tail
  /\ prompt (lit "professional") ada <> prompt (lit "social") ada
  /\ (lit "social" = lit "professional" <-> lit "tiktok" = lit "professional").
Proof.
  pose proof (prompt_determines_text_and_template (lit "Professional") (lit "") ada ada)
    as [H1 [H2 [H3 _]]].
  pose proof (prompt_determines_text_and_template (lit "social") (lit "tiktok") ada ada)
    as [_ [_ [_ H4]]].
  split; [exact H1 | split; [apply H2; discriminate | split; [exact H3|]]].
  exact (proj2 (H4 eq_refl)).
Defined.

(** ** The provider log *)

Lemma calls_step (genAI : bool) (w : world) (e : event) :
  exists more,
    calls (step genAI w e) = calls w ++ more
    /\ (List.length more <= if submits e then 1 else 0)%nat.
Proof.
  assert (Hsame : forall w' k, calls w' = calls w ->
            exists more, calls w' = calls w ++ more /\ (List.length more <= k)%nat).
  { intros w' k E; exists []; rewrite app_nil_r; split; [exact E | simpl; lia]. }
  assert (Hg : exists more, calls (generateBiography genAI w) = calls w ++ more
                            /\ (List.length more <= 1)%nat).
  { unfold generateBiography.
    destruct (negb (truthy _)); [apply Hsame; reflexivity|].
    destruct (negb genAI); [apply Hsame; reflexivity|].
    eexists; split; [reflexivity | simpl; lia]. }
  destruct e as [v|v| | |id o|written|dt]; simpl.
  - apply Hsame; reflexivity.
  - apply Hsame; reflexivity.
  - destruct (generate_disabled (ui w)); [apply Hsame; reflexivity | exact Hg].
  - exact Hg.
  - apply Hsame, settle_calls.
  - apply Hsame; destruct (truthy _); [destruct written|]; reflexivity.
  - apply Hsame; reflexivity.
Qed.

(** The provider is only called by running the handler, at most once per
    run, and the log of calls only grows: after any events it is the old
    log followed by at most as many prompts as there were clicks on
    "Generate" and direct calls.  No failure is retried. *)
Theorem provider_log_grows_by_submissions (genAI : bool) (evs : list event) (w : world) :
  exists more,
    calls (run genAI evs w) = calls w ++ more
    /\ (List.length more <= List.length (filter submits evs))%nat.
Proof.
  revert w; induction evs as [|e evs IH]; intros w; simpl.
  - exists []; rewrite app_nil_r; split; [reflexivity | simpl; lia].
  - destruct (calls_step genAI w e) as [m1 [H1 L1]].
    destruct (IH (step genAI w e)) as [m2 [H2 L2]].
    exists (m1 ++ m2); split.
    + change (run genAI (e :: evs) w) with (run genAI evs (step genAI w e)).
      rewrite H2, H1, app_assoc; reflexivity.
    + rewrite length_app; destruct (submits e); simpl in *; lia.
Qed.

(** ** The clock and the generation workflow *)

Lemma generateBiography_elapse (genAI : bool) (dt : N) (w : world) :
  generateBiography genAI (elapse dt w) = elapse dt (generateBiography genAI w).
Proof.
  assert (Hb : bioInfo (ui (elapse dt w)) = bioInfo (ui w)).
  { unfold elapse; simpl; destruct (filter _ (timers w)); reflexivity. }
  unfold generateBiography; rewrite Hb.
  destruct (negb (truthy (trim (bioInfo (ui w))))); [reflexivity|].
  destruct (negb genAI); unfold elapse; simpl;
    destruct (filter (fun d => d <=? now w + dt) (timers w)); reflexivity.
Qed.

(** Letting time pass before or after an event of the generation workflow
    (typing, selecting, submitting, a provider answer) gives the same
    state: the resets of the acknowledgment never touch a generation, and a
    generation never touches the clock, the queue of resets or the flag. *)
Theorem clock_commutes_with_generation (genAI : bool) (w : world) (dt : N) (e : event) :
  generation_event e = true ->
  step genAI (elapse dt w) e = elapse dt (step genAI w e).
Proof.
  intros He; destruct e as [v|v| | |id o|written|dt']; try discriminate He; cbn [step].
  - unfold elapse; simpl; destruct (filter _ (timers w)); reflexivity.
  - unfold elapse; simpl; destruct (filter _ (timers w)); reflexivity.
  - assert (Hd : generate_disabled (ui (elapse dt w)) = generate_disabled (ui w)).
    { unfold elapse; simpl; destruct (filter _ (timers w)); reflexivity. }
    rewrite Hd; destruct (generate_disabled (ui w)); [reflexivity|].
    apply generateBiography_elapse.
  - apply generateBiography_elapse.
  - unfold settle, elapse; simpl.
    destruct (existsb (Nat.eqb id) (pending w)); simpl; [|reflexivity].
    destruct (filter (fun d => d <=? now w + dt) (timers w)); simpl;
      destruct o; reflexivity.
Qed.

Lemma clock_commutes_with_generation_witness :
  let w := copyToClipboard true (generateBiography true generated) in
  step true (elapse 2500 w) (Settle 1 (Rejected OtherValue))
  = elapse 2500 (step true w (Settle 1 (Rejected OtherValue))).
Proof.
  intros w.
  exact (clock_commutes_with_generation true w 2500 (Settle 1 (Rejected OtherValue)) eq_refl).
Defined.

(** ** What the page shows *)

(** On the page the error box and the result card are never shown
    together, and while the button reads "Creating Your Biography..." it
    is disabled and no error box is shown. *)
Theorem page_shows_error_or_result (genAI : bool) (evs : list event) :
  forallb from_page evs = true ->
  let v := render (ui (run genAI evs mount)) in
  (error_box v = None \/ result_card v = None)
  /\ (button_label v = lit "Creating Your Biography..." ->
      button_disabled v = true /\ error_box v = None).
Proof.
  intros Hev v; subst v.
  destruct (page_inv_run genAI evs mount Hev page_inv_mount) as [Hp Hx].
  unfold render; simpl; split.
  - destruct Hx as [-> | ->]; [right | left]; reflexivity.
  - unfold generate_disabled.
    destruct (loading (ui (run genAI evs mount))) eqn:Hl; [|discriminate].
    intros _; split; [reflexivity|].
    destruct Hp as [[_ Hf]|[id [_ [_ ->]]]]; [congruence | reflexivity].
Qed.

Lemma page_shows_error_or_result_witness :
  let v := render (ui (run true [ClickGenerate;
                                 Settle 1 (Rejected (ErrorInstance (lit "rate limited")))]
                           generated)) in
  error_box v = Some (lit "rate limited") /\ result_card v = None.
Proof.
  intros v.
  pose proof (page_shows_error_or_result true
    [Edit ada; ClickGenerate; Settle 0 (Fulfilled (lit "  Hello world.  "));
     ClickGenerate; Settle 1 (Rejected (ErrorInstance (lit "rate limited")))]
    eq_refl) as [[H|H] _].
  - discriminate H.
  - split; [reflexivity | exact H].
Defined.

(** Outcomes that leave nothing to see.  A call that fails with an [Error]
    whose message is empty stores the empty message: the page is in the
    Error phase but shows neither error box nor result card.  After a
    success the result card is shown exactly when the response has a code
    unit that is not whitespace; an all-whitespace response empties the
    stored biography. *)
Theorem outcomes_that_show_nothing (w : world) (id : nat) (text : jsstring) :
  In id (pending w) ->
  let failed := ui (settle id (Rejected (ErrorInstance [])) w) in
  let done := ui (settle id (Fulfilled text) w) in
  phase_of failed = Error
  /\ error_box (render failed) = None
  /\ result_card (render failed) = None
  /\ result_card (render done) =
     (if forallb isWhiteSpace text
      then None
      else Some (trim text, if copied (ui w) then lit "Copied!" else lit "Copy"))
  /\ biography done = (if forallb isWhiteSpace text then [] else trim text).
Proof.
  intros Hin failed done; subst failed done.
  rewrite !(settle_pending _ _ _ Hin).
  split; [reflexivity | split; [reflexivity | split; [reflexivity|]]].
  unfold render; simpl; rewrite truthy_trim.
  destruct (forallb isWhiteSpace text) eqn:Hb; simpl; split; try reflexivity.
  apply trim_blank, blank_forallb; exact Hb.
Qed.

Lemma outcomes_that_show_nothing_witness :
  let w := generateBiography true typed in
  let failed := ui (settle 0 (Rejected (ErrorInstance [])) w) in
  let done := ui (settle 0 (Fulfilled (lit "  " ++ [10; 160])) w) in
  error_box (render failed) = None
  /\ result_card (render failed) = None
  /\ result_card (render done) = None
  /\ biography done = [].
Proof.
  intros w failed done.
  assert (Hin : In 0%nat (pending w)) by (left; reflexivity).
  pose proof (outcomes_that_show_nothing w 0 (lit "  " ++ [10; 160]) Hin)
    as [_ [H2 [H3 [H4 H5]]]].
  split; [exact H2 | split; [exact H3 | split; [exact H4 | exact H5]]].
Defined.

(** ** Leaving the Loading phase *)

Lemma loading_kept_step (genAI : bool) (w : world) (e : event) :
  loading (ui w) = true -> page_event_but_answer e = true ->
  let w' := step genAI w e in
  loading (ui w') = true /\ pending w' = pending w /\ calls w' = calls w
  /\ biography (ui w') = biography (ui w) /\ error (ui w') = error (ui w).
Proof.
  intros Hl He; destruct e as [v|v| | |id o|written|dt]; try discriminate He; simpl.
  - repeat split; exact Hl.
  - repeat split; exact Hl.
  - unfold generate_disabled; rewrite Hl; simpl; repeat split; exact Hl.
  - destruct (truthy _); [destruct written|]; simpl; repeat split; exact Hl.
  - unfold elapse; simpl; destruct (filter _ (timers w)); simpl; repeat split; exact Hl.
Qed.

(** Nothing on the page but the provider's answer ends loading: there is
    no timeout and no cancel.  While [loading] is set, typing, selecting,
    clicking either button and the passing of time leave [loading] set, the
    outstanding calls, the provider log, the stored biography and the stored
    error as they are; in particular the prompt already sent is not affected
    by later edits. *)
Theorem only_an_answer_ends_loading (genAI : bool) (evs : list event) (w : world) :
  loading (ui w) = true ->
  forallb page_event_but_answer evs = true ->
  let w' := run genAI evs w in
  loading (ui w') = true
  /\ pending w' = pending w
  /\ calls w' = calls w
  /\ biography (ui w') = biography (ui w)
  /\ error (ui w') = error (ui w).
Proof.
  revert w; induction evs as [|e evs IH]; intros w Hl Hev; simpl.
  - repeat split; exact Hl.
  - simpl in Hev; apply andb_prop in Hev as [He Hev].
    destruct (loading_kept_step genAI w e Hl He) as [H1 [H2 [H3 [H4 H5]]]].
    destruct (IH (step genAI w e) H1 Hev) as [K1 [K2 [K3 [K4 K5]]]].
    change (fold_left (step genAI) evs (step genAI w e))
      with (run genAI evs (step genAI w e)).
    repeat split; congruence.
Qed.

Lemma only_an_answer_ends_loading_witness :
  let w := run true [Edit ada; ClickGenerate] mount in
  let w' := run true [Elapse 600000; Edit (lit "Grace Hopper"); Select (lit "social");
                      ClickGenerate; ClickCopy true] w in
  loading (ui w') = true /\ calls w' = [prompt (lit "professional") ada].
Proof.
  intros w w'.
  pose proof (only_an_answer_ends_loading true
    [Elapse 600000; Edit (lit "Grace Hopper"); Select (lit "social");
     ClickGenerate; ClickCopy true] w eq_refl eq_refl) as [H1 [_ [H3 _]]].
  split; [exact H1 | exact H3].
Defined.
